(** * AgroDetect AI: the diagnosis workflow of [src/App.tsx]

    The component [App] keeps four pieces of React state ([image],
    [isAnalyzing], [result], [error]) and changes them from three places: the
    asynchronous function [analyzeImage], the file-input handler
    [handleFileChange] and [reset].  This development embeds these functions,
    the platform functions they call ([String.prototype.split], [toLowerCase],
    [includes], [JSON.parse], [FileReader.readAsDataURL]) and the event loop
    that interleaves them, and proves the properties of the workflow. *)

From Stdlib Require Import List String Ascii Bool Arith NArith Lia.
Import ListNotations.

Set Warnings "-register-all".

(** ** JavaScript strings

    A JavaScript string is a sequence of UTF-16 code units; a code unit is a
    number. String literals of the source are written [str "..."]. *)

Module Js.

Definition char := N.
Definition jsstring := list char.

Definition str (s : string) : jsstring :=
  map N_of_ascii (list_ascii_of_string s).
Arguments str s%_string.

Fixpoint jsstring_eqb (a b : jsstring) : bool :=
  match a, b with
  | [], [] => true
  | x :: a', y :: b' => N.eqb x y && jsstring_eqb a' b'
  | _, _ => false
  end.

(** [a.startsWith(b)] *)
Fixpoint startsWith (a b : jsstring) : bool :=
  match b, a with
  | [], _ => true
  | y :: b', x :: a' => N.eqb x y && startsWith a' b'
  | _ :: _, [] => false
  end.

(** [a.includes(b)]: [b] occurs in [a] as a run of consecutive code units. *)
Fixpoint includes (a b : jsstring) : bool :=
  startsWith a b ||
  match a with
  | [] => false
  | _ :: a' => includes a' b
  end.

(** [toLowerCase] on one code unit. The letters A-Z go to a-z. Code units
    outside ASCII are kept: the Unicode lower-case mapping sends no character
    outside ASCII to one of the letters of the word the view searches for, so
    the test [s.toLowerCase().includes('healthy')] is the one of the platform. *)
Definition lower (c : char) : char :=
  if (65 <=? c)%N && (c <=? 90)%N then (c + 32)%N else c.

Definition toLowerCase (s : jsstring) : jsstring := map lower s.

(** [s.split(sep)] for a separator of one code unit: the pieces between the
    occurrences of [sep], in order; a string with no [sep] is one piece. *)
Fixpoint split_aux (sep : char) (cur : jsstring) (s : jsstring) : list jsstring :=
  match s with
  | [] => [rev cur]
  | c :: s' =>
      if N.eqb c sep then rev cur :: split_aux sep [] s'
      else split_aux sep (c :: cur) s'
  end.

Definition split (s : jsstring) (sep : char) : list jsstring :=
  split_aux sep [] s.

(** [a || b] on a value that may be [undefined]: the empty string and
    [undefined] are the falsy cases. *)
Definition or_else (a : option jsstring) (b : jsstring) : jsstring :=
  match a with
  | Some (c :: r) => c :: r
  | Some [] | None => b
  end.

End Js.
Import Js.

(** ** JSON values and [JSON.parse]

    [JSON.parse] is the platform's parser (ECMA-404 grammar, no reviver). It
    is embedded as a lexer that reads the text one code unit at a time and a
    parser that reads the tokens with an explicit stack of open arrays and
    objects; both are total. [None] stands for the [SyntaxError] it throws.

    A number is kept as the text that denotes it: the conversion to a double
    is not modelled and no property below reads a number. [JNull] is the
    value [null]. The properties of an object are kept in the order of their
    first definition; a repeated key overwrites the earlier value. *)

Module Json.

Inductive JsValue : Type :=
| JNull
| JBool (b : bool)
| JNumber (lexeme : jsstring)
| JString (s : jsstring)
| JArray (items : list JsValue)
| JObject (props : list (jsstring * JsValue)).

Definition is_null (v : JsValue) : bool :=
  match v with JNull => true | _ => false end.

(** Definition of the property [k] of an object under construction. *)
Fixpoint set_prop (props : list (jsstring * JsValue)) (k : jsstring) (v : JsValue)
  : list (jsstring * JsValue) :=
  match props with
  | [] => [(k, v)]
  | (k', v') :: rest =>
      if jsstring_eqb k' k then (k, v) :: rest
      else (k', v') :: set_prop rest k v
  end.

Fixpoint lookup (props : list (jsstring * JsValue)) (k : jsstring) : option JsValue :=
  match props with
  | [] => None
  | (k', v) :: rest => if jsstring_eqb k' k then Some v else lookup rest k
  end.

(** [v.k] for a value [v] that is not [null] and a name [k] that no
    prototype defines (the seven field names of the result are such names):
    [None] is [undefined]. *)
Definition get (v : JsValue) (k : jsstring) : option JsValue :=
  match v with
  | JObject props => lookup props k
  | _ => None
  end.

Inductive token : Type :=
| TLBrace | TRBrace | TLBracket | TRBracket | TColon | TComma
| TString (s : jsstring)
| TNumber (lexeme : jsstring)
| TTrue | TFalse | TNull.

Inductive numstate : Type :=
| NMinus | NZero | NInt | NDot | NFrac | NExp | NExpSign | NExpDigits.

(** The accumulators hold the code units read so far, last one first. *)
Inductive lexmode : Type :=
| LTop
| LString (acc : jsstring)
| LEscape (acc : jsstring)
| LUnicode (acc : jsstring) (more : nat) (code : N)
| LNumber (st : numstate) (acc : jsstring)
| LLiteral (rest : jsstring) (tok : token).

Definition is_ws (c : char) : bool :=
  N.eqb c 32 || N.eqb c 9 || N.eqb c 10 || N.eqb c 13.

Definition is_digit (c : char) : bool := (48 <=? c)%N && (c <=? 57)%N.

Definition hex_value (c : char) : option N :=
  if is_digit c then Some (c - 48)%N
  else if (97 <=? c)%N && (c <=? 102)%N then Some (c - 87)%N
  else if (65 <=? c)%N && (c <=? 70)%N then Some (c - 55)%N
  else None.

Definition lex_top (c : char) : option (list token * lexmode) :=
  if is_ws c then Some ([], LTop)
  else if N.eqb c 123 then Some ([TLBrace], LTop)
  else if N.eqb c 125 then Some ([TRBrace], LTop)
  else if N.eqb c 91 then Some ([TLBracket], LTop)
  else if N.eqb c 93 then Some ([TRBracket], LTop)
  else if N.eqb c 58 then Some ([TColon], LTop)
  else if N.eqb c 44 then Some ([TComma], LTop)
  else if N.eqb c 34 then Some ([], LString [])
  else if N.eqb c 45 then Some ([], LNumber NMinus [c])
  else if N.eqb c 48 then Some ([], LNumber NZero [c])
  else if is_digit c then Some ([], LNumber NInt [c])
  else if N.eqb c 116 then Some ([], LLiteral (str "rue") TTrue)
  else if N.eqb c 102 then Some ([], LLiteral (str "alse") TFalse)
  else if N.eqb c 110 then Some ([], LLiteral (str "ull") TNull)
  else None.

Definition escape_value (c : char) : option char :=
  if N.eqb c 34 then Some 34%N
  else if N.eqb c 92 then Some 92%N
  else if N.eqb c 47 then Some 47%N
  else if N.eqb c 98 then Some 8%N
  else if N.eqb c 102 then Some 12%N
  else if N.eqb c 110 then Some 10%N
  else if N.eqb c 114 then Some 13%N
  else if N.eqb c 116 then Some 9%N
  else None.

Definition is_exp (c : char) : bool := N.eqb c 101 || N.eqb c 69.

(** [Some (Some st')]: the number goes on in state [st']; [Some None]: the
    number is complete before [c]; [None]: the text is not a number. *)
Definition num_step (st : numstate) (c : char) : option (option numstate) :=
  match st with
  | NMinus =>
      if N.eqb c 48 then Some (Some NZero)
      else if is_digit c then Some (Some NInt) else None
  | NZero =>
      if N.eqb c 46 then Some (Some NDot)
      else if is_exp c then Some (Some NExp) else Some None
  | NInt =>
      if is_digit c then Some (Some NInt)
      else if N.eqb c 46 then Some (Some NDot)
      else if is_exp c then Some (Some NExp) else Some None
  | NDot => if is_digit c then Some (Some NFrac) else None
  | NFrac =>
      if is_digit c then Some (Some NFrac)
      else if is_exp c then Some (Some NExp) else Some None
  | NExp =>
      if N.eqb c 43 || N.eqb c 45 then Some (Some NExpSign)
      else if is_digit c then Some (Some NExpDigits) else None
  | NExpSign => if is_digit c then Some (Some NExpDigits) else None
  | NExpDigits => if is_digit c then Some (Some NExpDigits) else Some None
  end.

Definition num_final (st : numstate) : bool :=
  match st with
  | NZero | NInt | NFrac | NExpDigits => true
  | NMinus | NDot | NExp | NExpSign => false
  end.

Definition lex_char (m : lexmode) (c : char) : option (list token * lexmode) :=
  match m with
  | LTop => lex_top c
  | LString acc =>
      if N.eqb c 34 then Some ([TString (rev acc)], LTop)
      else if N.eqb c 92 then Some ([], LEscape acc)
      else if (c <? 32)%N then None
      else Some ([], LString (c :: acc))
  | LEscape acc =>
      if N.eqb c 117 then Some ([], LUnicode acc 3 0%N)
      else match escape_value c with
           | Some e => Some ([], LString (e :: acc))
           | None => None
           end
  | LUnicode acc more code =>
      match hex_value c with
      | Some h =>
          let code' := (code * 16 + h)%N in
          match more with
          | O => Some ([], LString (code' :: acc))
          | S k => Some ([], LUnicode acc k code')
          end
      | None => None
      end
  | LNumber st acc =>
      match num_step st c with
      | Some (Some st') => Some ([], LNumber st' (c :: acc))
      | Some None =>
          match lex_top c with
          | Some (toks, m') => Some (TNumber (rev acc) :: toks, m')
          | None => None
          end
      | None => None
      end
  | LLiteral rest tok =>
      match rest with
      | x :: [] => if N.eqb c x then Some ([tok], LTop) else None
      | x :: rest' => if N.eqb c x then Some ([], LLiteral rest' tok) else None
      | [] => None
      end
  end.

Definition lex_end (m : lexmode) : option (list token) :=
  match m with
  | LTop => Some []
  | LNumber st acc => if num_final st then Some [TNumber (rev acc)] else None
  | _ => None
  end.

Fixpoint lex (m : lexmode) (s : jsstring) : option (list token) :=
  match s with
  | [] => lex_end m
  | c :: s' =>
      match lex_char m c with
      | Some (toks, m') =>
          match lex m' s' with
          | Some rest => Some (toks ++ rest)
          | None => None
          end
      | None => None
      end
  end.

(** An array or an object that is still open, with what it holds so far
    (array items last one first) and, for an object, the key whose value is
    being read. *)
Inductive frame : Type :=
| FArray (done : list JsValue)
| FObject (done : list (jsstring * JsValue)) (key : jsstring).

Inductive pstate : Type :=
| PValue (stk : list frame)
| PArrayStart (stk : list frame)
| PObjectStart (stk : list frame)
| PKey (done : list (jsstring * JsValue)) (stk : list frame)
| PColon (done : list (jsstring * JsValue)) (key : jsstring) (stk : list frame)
| PAfter (v : JsValue) (stk : list frame).

Definition parse_value_start (stk : list frame) (t : token) : option pstate :=
  match t with
  | TLBrace => Some (PObjectStart stk)
  | TLBracket => Some (PArrayStart stk)
  | TString s => Some (PAfter (JString s) stk)
  | TNumber n => Some (PAfter (JNumber n) stk)
  | TTrue => Some (PAfter (JBool true) stk)
  | TFalse => Some (PAfter (JBool false) stk)
  | TNull => Some (PAfter JNull stk)
  | TRBrace | TRBracket | TColon | TComma => None
  end.

Definition parse_token (p : pstate) (t : token) : option pstate :=
  match p with
  | PValue stk => parse_value_start stk t
  | PArrayStart stk =>
      match t with
      | TRBracket => Some (PAfter (JArray []) stk)
      | _ => parse_value_start (FArray [] :: stk) t
      end
  | PObjectStart stk =>
      match t with
      | TRBrace => Some (PAfter (JObject []) stk)
      | TString k => Some (PColon [] k stk)
      | _ => None
      end
  | PKey done stk =>
      match t with
      | TString k => Some (PColon done k stk)
      | _ => None
      end
  | PColon done k stk =>
      match t with
      | TColon => Some (PValue (FObject done k :: stk))
      | _ => None
      end
  | PAfter v stk =>
      match stk with
      | [] => None
      | FArray done :: stk' =>
          match t with
          | TComma => Some (PValue (FArray (v :: done) :: stk'))
          | TRBracket => Some (PAfter (JArray (rev (v :: done))) stk')
          | _ => None
          end
      | FObject done k :: stk' =>
          match t with
          | TComma => Some (PKey (set_prop done k v) stk')
          | TRBrace => Some (PAfter (JObject (set_prop done k v)) stk')
          | _ => None
          end
      end
  end.

Fixpoint parse_tokens (p : pstate) (ts : list token) : option JsValue :=
  match ts with
  | [] => match p with PAfter v [] => Some v | _ => None end
  | t :: ts' =>
      match parse_token p t with
      | Some p' => parse_tokens p' ts'
      | None => None
      end
  end.

(** [JSON.parse(text)]; [None] when it throws. *)
Definition parse (text : jsstring) : option JsValue :=
  match lex LTop text with
  | Some ts => parse_tokens (PValue []) ts
  | None => None
  end.

End Json.
Import Json.

Definition dq : jsstring := [34%N].
Definition bs : jsstring := [92%N].

(** ** The state of the component

    [useState] gives the component four cells. [result] is declared
    [AnalysisResult | null]; what [setResult] receives is the value
    [JSON.parse] returned, of any shape, so the cell holds a [JsValue] and
    [JNull] is the absent result. *)

Record AppState : Type := mkApp {
  image : option jsstring;
  isAnalyzing : bool;
  result : JsValue;
  error : option jsstring
}.

(** [useState(null)], [useState(false)], [useState(null)], [useState(null)] *)
Definition initialState : AppState :=
  {| image := None; isAnalyzing := false; result := JNull; error := None |}.

(** [interface AnalysisResult] *)
Record AnalysisResult : Type := mkResult {
  diseaseName : jsstring;
  scientificName : jsstring;
  confidence : jsstring;
  symptoms : list jsstring;
  causes : list jsstring;
  treatment : jsstring;
  prevention : jsstring
}.

(** The names of its seven fields. *)
Definition FIELDS : list jsstring :=
  [str "diseaseName"; str "scientificName"; str "confidence"; str "symptoms";
   str "causes"; str "treatment"; str "prevention"].

(** An [AnalysisResult] as the value it is at run time. *)
Definition to_js (r : AnalysisResult) : JsValue :=
  JObject
    [(str "diseaseName", JString (diseaseName r));
     (str "scientificName", JString (scientificName r));
     (str "confidence", JString (confidence r));
     (str "symptoms", JArray (map JString (symptoms r)));
     (str "causes", JArray (map JString (causes r)));
     (str "treatment", JString (treatment r));
     (str "prevention", JString (prevention r))].

(** ** Handlers as computations on the state

    A handler reads and writes the cells and may throw. The setters of one
    handler run are applied together before the next render, so a run of
    synchronous code is one step of the component. *)

Inductive Exn : Type :=
| SyntaxError
| Rejection (reason : jsstring).

Inductive completion (A : Type) : Type :=
| Normal (a : A)
| Throw (e : Exn).
Arguments Normal {A} a.
Arguments Throw {A} e.

Definition M (A : Type) : Type := AppState -> completion A * AppState.

Definition ret {A} (a : A) : M A := fun s => (Normal a, s).
Definition throw {A} (e : Exn) : M A := fun s => (Throw e, s).
Definition bind {A B} (m : M A) (k : A -> M B) : M B :=
  fun s =>
    match m s with
    | (Normal a, s') => k a s'
    | (Throw e, s') => (Throw e, s')
    end.

Notation "x <- m ;; k" := (bind m (fun x => k))
  (at level 61, m at next level, right associativity).
Notation "m ;; k" := (bind m (fun _ => k))
  (at level 61, right associativity).

(** [try { body } catch (err) { handler err } finally { fin }] *)
Definition try_catch_finally {A} (body : M A) (handler : Exn -> M A) (fin : M unit)
  : M A :=
  fun s =>
    let (c, s1) :=
      match body s with
      | (Normal a, s') => (Normal a, s')
      | (Throw e, s') => handler e s'
      end in
    match fin s1 with
    | (Normal _, s2) => (c, s2)
    | (Throw e, s2) => (Throw e, s2)
    end.

(** The state a handler leaves. *)
Definition after {A} (m : M A) (s : AppState) : AppState := snd (m s).

Definition setImage (v : option jsstring) : M unit :=
  fun s => (Normal tt, {| image := v; isAnalyzing := isAnalyzing s;
                          result := result s; error := error s |}).
Definition setIsAnalyzing (v : bool) : M unit :=
  fun s => (Normal tt, {| image := image s; isAnalyzing := v;
                          result := result s; error := error s |}).
Definition setResult (v : JsValue) : M unit :=
  fun s => (Normal tt, {| image := image s; isAnalyzing := isAnalyzing s;
                          result := v; error := error s |}).
Definition setError (v : option jsstring) : M unit :=
  fun s => (Normal tt, {| image := image s; isAnalyzing := isAnalyzing s;
                          result := result s; error := v |}).

(** ** The request of [ai.models.generateContent] *)

Inductive Schema : Type :=
| SString
| SArray (items : Schema)
| SObject (properties : list (jsstring * Schema)) (required : list jsstring).

Inductive Part : Type :=
| InlineData (mimeType : jsstring) (data : option jsstring)
| Text (text : jsstring).

Record Request : Type := mkRequest {
  model : jsstring;
  parts : list Part;
  responseMimeType : jsstring;
  responseSchema : Schema
}.

Definition PROMPT : jsstring :=
  str "Analyze this plant image for diseases. Provide a detailed diagnosis in JSON format. If the plant is healthy, state it clearly. Include: diseaseName, scientificName, confidence (percentage), symptoms (array), causes (array), treatment (markdown string), and prevention (markdown string).".

Definition RESPONSE_SCHEMA : Schema :=
  SObject
    [(str "diseaseName", SString);
     (str "scientificName", SString);
     (str "confidence", SString);
     (str "symptoms", SArray SString);
     (str "causes", SArray SString);
     (str "treatment", SString);
     (str "prevention", SString)]
    [str "diseaseName"; str "scientificName"; str "confidence"; str "symptoms";
     str "causes"; str "treatment"; str "prevention"].

(** The argument of [generateContent] in [analyzeImage]. [split(',')[1]] is
    [undefined] when the string has no comma. *)
Definition request_of (base64Image : jsstring) : Request :=
  {| model := str "gemini-3-flash-preview";
     parts := [InlineData (str "image/jpeg") (nth_error (split base64Image 44%N) 1);
               Text PROMPT];
     responseMimeType := str "application/json";
     responseSchema := RESPONSE_SCHEMA |}.

(** The [mimeType] a request declares for its image. *)
Definition request_mimeType (r : Request) : option jsstring :=
  match parts r with
  | InlineData m _ :: _ => Some m
  | _ => None
  end.

Definition request_data (r : Request) : option jsstring :=
  match parts r with
  | InlineData _ d :: _ => d
  | _ => None
  end.

(** How the awaited promise settles: rejected (network failure, a response
    that is not a success, any exception of the client), or fulfilled with a
    response whose [text] is a string or [undefined]. *)
Inductive Settlement : Type :=
| Rejected (reason : jsstring)
| Fulfilled (text : option jsstring).

Definition awaited (o : Settlement) : M (option jsstring) :=
  match o with
  | Fulfilled text => ret text
  | Rejected reason => throw (Rejection reason)
  end.

Definition JSON_parse (text : jsstring) : M JsValue :=
  match Json.parse text with
  | Some v => ret v
  | None => throw SyntaxError
  end.

Definition FAILURE_MESSAGE : jsstring :=
  str "Failed to analyze image. Please try again with a clearer photo.".

(** ** [analyzeImage]

    The function runs up to its [await] when it is called and goes on when
    the promise settles. [analyzeImage_call] is the first part: the three
    setters, then the request is built and sent (the client is taken to be
    configured, so nothing throws before the [await]). [analyzeImage_settle]
    is the rest of the [try] with its [catch] and [finally];
    [console.error] writes no cell. *)

Definition analyzeImage_call (base64Image : jsstring) : M Request :=
  setIsAnalyzing true ;;
  setError None ;;
  setResult JNull ;;
  ret (request_of base64Image).

Definition analyzeImage_settle (o : Settlement) : M unit :=
  try_catch_finally
    (response_text <- awaited o ;;
     data <- JSON_parse (or_else response_text (str "{}")) ;;
     setResult data)
    (fun err => setError (Some FAILURE_MESSAGE))
    (setIsAnalyzing false).

(** ** [handleFileChange] and [reset] *)

(** A [File] of the input: its declared type and its content in base 64. *)
Record File : Type := mkFile {
  file_type : jsstring;
  file_base64 : jsstring
}.

(** The type a data URL declares for a file: the type of the file, and
    [application/octet-stream] for a file of unknown type. *)
Definition dataURL_type (f : File) : jsstring :=
  match file_type f with
  | [] => str "application/octet-stream"
  | t => t
  end.

(** [reader.readAsDataURL(file)] leaves in [reader.result] the data URL
    [data:<type>;base64,<content>]. *)
Definition readAsDataURL (f : File) : jsstring :=
  str "data:" ++ dataURL_type f ++ str ";base64," ++ file_base64 f.

(** [reader.onloadend] of [handleFileChange], with [reader.result]. *)
Definition onloadend (base64 : jsstring) : M Request :=
  setImage (Some base64) ;;
  analyzeImage_call base64.

Definition reset : M unit :=
  setImage None ;;
  setResult JNull ;;
  setError None.

(** ** The component in its event loop

    Besides the cells, the world holds the calls of [generateContent] that
    have not settled yet, oldest first. Nothing cancels a call: [reset] and a
    later [analyzeImage] leave the earlier ones in flight. *)

Record World : Type := mkWorld {
  app : AppState;
  inflight : list Request
}.

Definition initialWorld : World := {| app := initialState; inflight := [] |}.

Inductive Event : Type :=
| FileLoaded (base64 : jsstring)      (* [reader.onloadend] fires *)
| Analyze (base64Image : jsstring)    (* [analyzeImage] is called *)
| Reset                               (* a button calls [reset] *)
| Settled (i : nat) (o : Settlement). (* the [i]-th call in flight settles *)

Fixpoint remove_nth {A} (i : nat) (l : list A) : list A :=
  match l, i with
  | [], _ => []
  | _ :: l', O => l'
  | x :: l', S j => x :: remove_nth j l'
  end.

(** A call puts its request in flight. *)
Definition send (m : M Request) (w : World) : World :=
  match m (app w) with
  | (Normal r, s) => {| app := s; inflight := inflight w ++ [r] |}
  | (Throw _, s) => {| app := s; inflight := inflight w |}
  end.

(** One event; [None] when the event cannot happen (no such call in flight). *)
Definition step (w : World) (e : Event) : option World :=
  match e with
  | FileLoaded base64 => Some (send (onloadend base64) w)
  | Analyze base64Image => Some (send (analyzeImage_call base64Image) w)
  | Reset => Some {| app := after reset (app w); inflight := inflight w |}
  | Settled i o =>
      match nth_error (inflight w) i with
      | Some _ =>
          Some {| app := after (analyzeImage_settle o) (app w);
                  inflight := remove_nth i (inflight w) |}
      | None => None
      end
  end.

Fixpoint run (w : World) (es : list Event) : option World :=
  match es with
  | [] => Some w
  | e :: es' =>
      match step w e with
      | Some w' => run w' es'
      | None => None
      end
  end.

(** [ok] holds of every event of [es] at the world it happens in. *)
Fixpoint along (ok : World -> Event -> bool) (w : World) (es : list Event) : bool :=
  match es with
  | [] => true
  | e :: es' =>
      ok w e
      && match step w e with
         | Some w' => along ok w' es'
         | None => true
         end
  end.

Definition starts_call (e : Event) : bool :=
  match e with
  | FileLoaded _ | Analyze _ => true
  | Reset | Settled _ _ => false
  end.

(** The event does not start a call while another one is in flight. *)
Definition no_overlap (w : World) (e : Event) : bool :=
  negb (starts_call e)
  || match inflight w with [] => true | _ :: _ => false end.

(** Along [es] from [w], [analyzeImage] is never called while a call is in
    flight. *)
Definition one_at_a_time : World -> list Event -> bool := along no_overlap.

(** ** What the view shows

    The four states of the workflow are read off the cells the way the view
    tests them: the overlay under [isAnalyzing], the error card under
    [error], the report under [result], and the invitation under
    [!result && !isAnalyzing && !error]. A cell counts as set when it is
    not [null]: for the declared types of the cells ([AnalysisResult | null],
    [string | null] with one message, which is not empty) this is the
    truthiness test of the view. *)

Inductive Phase : Type := Idle | Analyzing | Ready | Failed.

Definition has_error (s : AppState) : bool :=
  match error s with Some _ => true | None => false end.

Definition has_result (s : AppState) : bool := negb (is_null (result s)).

Definition phase (s : AppState) : Phase :=
  if isAnalyzing s then Analyzing
  else if has_error s then Failed
  else if has_result s then Ready
  else Idle.

(** The badge of the report:
    [result.diseaseName.toLowerCase().includes('healthy') ? 'Status: Optimal'
     : 'Diagnosis: Critical']. [None] is the [TypeError] of a [diseaseName]
    that is not a string. *)
Definition status_badge (r : JsValue) : option jsstring :=
  match get r (str "diseaseName") with
  | Some (JString name) =>
      Some (if includes (toLowerCase name) (str "healthy")
            then str "Status: Optimal"
            else str "Diagnosis: Critical")
  | _ => None
  end.

(** ** Vocabulary of the properties *)

(** The call fails: the promise is rejected, or [JSON.parse] throws. *)
Definition fails (o : Settlement) : bool :=
  match o with
  | Rejected _ => true
  | Fulfilled text =>
      match Json.parse (or_else text (str "{}")) with
      | Some _ => false
      | None => true
      end
  end.

(** What a settlement does to the cells: the [catch] branch when the call
    fails, the end of the [try] block when the text parses. *)
Inductive settle_spec (o : Settlement) (s : AppState) : AppState -> Prop :=
| settle_caught :
    fails o = true ->
    settle_spec o s
      {| image := image s; isAnalyzing := false; result := result s;
         error := Some FAILURE_MESSAGE |}
| settle_parsed (text : option jsstring) (data : JsValue) :
    o = Fulfilled text ->
    Json.parse (or_else text (str "{}")) = Some data ->
    fails o = false ->
    settle_spec o s
      {| image := image s; isAnalyzing := false; result := data;
         error := error s |}.

(** [v] has every field of [names]. *)
Definition has_fields (v : JsValue) (names : list jsstring) : bool :=
  forallb (fun k => match get v k with Some _ => true | None => false end) names.

(** [s] contains [word] up to the case of its letters: some run of
    consecutive code units of [s] lower-cases to the lower-cased [word]. *)
Definition contains_ci (s word : jsstring) : Prop :=
  exists pre mid post,
    s = pre ++ mid ++ post /\ toLowerCase mid = toLowerCase word.

(** A body is empty when the response has no text or an empty text. *)
Definition empty_body (text : option jsstring) : bool :=
  match text with
  | None | Some [] => true
  | Some (_ :: _) => false
  end.

(** One whole run of [analyzeImage] from [s]: the call, then the settlement
    [o], with no other event between them. *)
Definition analyzeImage_run (base64Image : jsstring) (o : Settlement) (s : AppState)
  : AppState :=
  after (analyzeImage_settle o) (after (analyzeImage_call base64Image) s).

(** No code unit of [s] is a comma. *)
Definition comma_free (s : jsstring) : bool :=
  forallb (fun c => negb (N.eqb c 44%N)) s.

(** The event [e] takes [w] to [Analyzing] with [result] and [error]
    cleared, and leaves its request [r] in flight. *)
Definition enters_analyzing (w : World) (e : Event) (r : Request) : Prop :=
  exists w',
    step w e = Some w'
    /\ phase (app w') = Analyzing
    /\ result (app w') = JNull
    /\ error (app w') = None
    /\ inflight w' = inflight w ++ [r].

(** *** Invariants *)

(** While [isAnalyzing] is set, [result] and [error] are both absent. *)
Definition analyzing_is_clear (w : World) : Prop :=
  isAnalyzing (app w) = true -> result (app w) = JNull /\ error (app w) = None.

(** With one call at a time: with no call in flight [result] and [error] are
    not both set, with one call in flight both are absent, and there are
    never two. *)
Definition serial_inv (w : World) : Prop :=
  match inflight w with
  | [] => has_result (app w) && has_error (app w) = false
  | [_] => result (app w) = JNull /\ error (app w) = None
  | _ :: _ :: _ => False
  end.

(** *** Inputs of the examples *)

Definition quoted (s : jsstring) : jsstring := dq ++ s ++ dq.

(** The data URLs of a small JPEG and of a small PNG. *)
Definition jpeg_file : File :=
  {| file_type := str "image/jpeg"; file_base64 := str "/9j/4AAQSkZJRg==" |}.
Definition png_file : File :=
  {| file_type := str "image/png"; file_base64 := str "iVBORw0KGgo=" |}.

(** The report of a healthy plant, as the value and as the text of the
    response that carries it. *)
Definition healthy : AnalysisResult :=
  {| diseaseName := str "Healthy";
     scientificName := [];
     confidence := str "99%";
     symptoms := [];
     causes := [];
     treatment := str "No action needed.";
     prevention := str "Maintain watering schedule." |}.

Definition healthy_report : JsValue := to_js healthy.

Definition healthy_text : jsstring :=
  str "{" ++ quoted (str "diseaseName") ++ str ":" ++ quoted (str "Healthy")
  ++ str "," ++ quoted (str "scientificName") ++ str ":" ++ quoted []
  ++ str "," ++ quoted (str "confidence") ++ str ":" ++ quoted (str "99%")
  ++ str "," ++ quoted (str "symptoms") ++ str ":[]"
  ++ str "," ++ quoted (str "causes") ++ str ":[]"
  ++ str "," ++ quoted (str "treatment") ++ str ":" ++ quoted (str "No action needed.")
  ++ str "," ++ quoted (str "prevention") ++ str ":"
  ++ quoted (str "Maintain watering schedule.") ++ str "}".

(** A body that is not JSON. *)
Definition malformed_text : jsstring := str "I cannot analyze this image.".

(** Two uploads whose calls overlap: the first image is loaded, the user
    resets and loads a second one, then the first call is rejected and the
    second is fulfilled. *)
Definition overlapping_calls : list Event :=
  [FileLoaded (readAsDataURL jpeg_file);
   Reset;
   FileLoaded (readAsDataURL png_file);
   Settled 0 (Rejected (str "503 Service Unavailable"));
   Settled 0 (Fulfilled (Some healthy_text))].

(** One upload and its answer. *)
Definition one_upload : list Event :=
  [FileLoaded (readAsDataURL jpeg_file);
   Settled 0 (Fulfilled (Some healthy_text))].

(** ** The view of [App]

    The JSX that [App] returns, as far as it depends on the cells: which of
    its conditional parts are there and which values of the cells they are
    given. Evaluating it throws a [TypeError] when the report reads
    [toLowerCase] off a [diseaseName] that is not a string or [map] off a
    [symptoms] or [causes] that is not an array. What React and the Markdown
    component then do with the children they are given is not part of it. *)

(** A cell of type [string | null] under [&&], [!] and [?:]. *)
Definition truthy_string (v : option jsstring) : bool :=
  match v with
  | Some (_ :: _) => true
  | Some [] | None => false
  end.

(** [result] under [&&] and [!]. The value of a numeric literal is not
    modelled, so nothing is said of a number: [None]. *)
Definition truthy (v : JsValue) : option bool :=
  match v with
  | JNull => Some false
  | JBool b => Some b
  | JString [] => Some false
  | JString (_ :: _) => Some true
  | JArray _ | JObject _ => Some true
  | JNumber _ => None
  end.

(** The report card under [result &&]. *)
Record Report : Type := mkReport {
  optimal : bool;                        (* emerald badge and check icon, or amber *)
  badge : jsstring;                      (* 'Status: Optimal' or 'Diagnosis: Critical' *)
  confidence_shown : option JsValue;     (* [{result.confidence}] *)
  heading : jsstring;                    (* [{result.diseaseName}] *)
  scientificName_shown : option JsValue; (* [{result.scientificName}] *)
  symptom_items : list JsValue;          (* one [li] for each of [result.symptoms] *)
  cause_items : list JsValue;            (* one [li] for each of [result.causes] *)
  treatment_markdown : option JsValue;   (* [<Markdown>{result.treatment}</Markdown>] *)
  prevention_markdown : option JsValue   (* [<Markdown>{result.prevention}</Markdown>] *)
}.

(** The report of a result that is truthy; [None] is the [TypeError]. *)
Definition report_of (r : JsValue) : option Report :=
  match get r (str "diseaseName"), get r (str "symptoms"), get r (str "causes") with
  | Some (JString name), Some (JArray syms), Some (JArray cs) =>
      let healthy := includes (toLowerCase name) (str "healthy") in
      Some {| optimal := healthy;
              badge := if healthy then str "Status: Optimal"
                       else str "Diagnosis: Critical";
              confidence_shown := get r (str "confidence");
              heading := name;
              scientificName_shown := get r (str "scientificName");
              symptom_items := syms;
              cause_items := cs;
              treatment_markdown := get r (str "treatment");
              prevention_markdown := get r (str "prevention") |}
  | _, _, _ => None
  end.

Record View : Type := mkView {
  reset_button : bool;            (* [image && <button onClick={reset}>] *)
  dropzone : bool;                (* [!image ?]: the upload area and its file input *)
  preview : option jsstring;      (* [<img src={image}>] *)
  overlay : bool;                 (* [isAnalyzing &&] over the preview *)
  error_card : option jsstring;   (* [error &&], with its Try Again button *)
  idle_panel : bool;              (* [!result && !isAnalyzing && !error &&] *)
  report : option Report          (* [result &&], with its New Analysis button *)
}.

Inductive Rendering : Type :=
| Rendered (v : View)
| TypeError
| NotModelled.

Definition render (s : AppState) : Rendering :=
  match truthy (result s) with
  | None => NotModelled
  | Some has_r =>
      let has_image := truthy_string (image s) in
      let has_e := truthy_string (error s) in
      let frame (rep : option Report) :=
        {| reset_button := has_image;
           dropzone := negb has_image;
           preview := if has_image then image s else None;
           overlay := has_image && isAnalyzing s;
           error_card := if has_e then error s else None;
           idle_panel := negb has_r && negb (isAnalyzing s) && negb has_e;
           report := rep |} in
      if has_r then
        match report_of (result s) with
        | Some rep => Rendered (frame (Some rep))
        | None => TypeError
        end
      else Rendered (frame None)
  end.

(** [v] is a value of the shape [schema] asks for: a string, an array of
    items of the shape, or an object with every required property and with
    every declared property it has of its shape. *)
Fixpoint conforms (schema : Schema) (v : JsValue) {struct schema} : bool :=
  match schema, v with
  | SString, JString _ => true
  | SArray items, JArray vs => forallb (conforms items) vs
  | SObject properties required, JObject _ =>
      forallb (fun k => match get v k with Some _ => true | None => false end)
        required
      && (fix each (ps : list (jsstring * Schema)) : bool :=
            match ps with
            | [] => true
            | (k, sch) :: ps' =>
                match get v k with
                | Some x => conforms sch x
                | None => true
                end
                && each ps'
            end) properties
  | _, _ => false
  end.

(** ** Counting the calls of a run *)



(** With one call at a time the flag [isAnalyzing] tells whether a call is
    in flight. *)
Definition flag_inv (w : World) : Prop :=
  match inflight w with
  | [] => isAnalyzing (app w) = false
  | [_] => isAnalyzing (app w) = true
  | _ :: _ :: _ => False
  end.

(** While [isAnalyzing] is set, a call is in flight. *)
Definition flag_needs_call (w : World) : Prop :=
  isAnalyzing (app w) = true -> exists r rest, inflight w = rest ++ [r].


(** What a settlement leaves in [result] and [error] when both were absent. *)
Definition outcome_cells (o : Settlement) : JsValue * option jsstring :=
  match o with
  | Rejected _ => (JNull, Some FAILURE_MESSAGE)
  | Fulfilled text =>
      match Json.parse (or_else text (str "{}")) with
      | Some data => (data, None)
      | None => (JNull, Some FAILURE_MESSAGE)
      end
  end.

(** The settlement [o] fails or carries a value of the shape the request
    asked for. *)
Definition honours_schema (o : Settlement) : bool :=
  match outcome_cells o with
  | (_, Some _) => true
  | (data, None) => conforms RESPONSE_SCHEMA data
  end.

(** The event is no settlement, or a settlement that honours the schema. *)
Definition schema_honoured (w : World) (e : Event) : bool :=
  match e with
  | Settled _ o => honours_schema o
  | FileLoaded _ | Analyze _ | Reset => true
  end.

(** [result] is absent or of the shape of the schema. *)
Definition result_well_shaped (w : World) : Prop :=
  result (app w) = JNull \/ conforms RESPONSE_SCHEMA (result (app w)) = true.


(** A report of a diseased plant and the text that carries it. *)
Definition blight : AnalysisResult :=
  {| diseaseName := str "Early Blight";
     scientificName := str "Alternaria solani";
     confidence := str "92%";
     symptoms := [str "Dark spots"; str "Yellow halo"];
     causes := [str "Fungus"];
     treatment := str "Remove affected leaves.";
     prevention := str "Rotate crops." |}.

Definition blight_text : jsstring :=
  str "{" ++ quoted (str "diseaseName") ++ str ":" ++ quoted (str "Early Blight")
  ++ str "," ++ quoted (str "scientificName") ++ str ":"
  ++ quoted (str "Alternaria solani")
  ++ str "," ++ quoted (str "confidence") ++ str ":" ++ quoted (str "92%")
  ++ str "," ++ quoted (str "symptoms") ++ str ":[" ++ quoted (str "Dark spots")
  ++ str "," ++ quoted (str "Yellow halo") ++ str "]"
  ++ str "," ++ quoted (str "causes") ++ str ":[" ++ quoted (str "Fungus") ++ str "]"
  ++ str "," ++ quoted (str "treatment") ++ str ":"
  ++ quoted (str "Remove affected leaves.")
  ++ str "," ++ quoted (str "prevention") ++ str ":" ++ quoted (str "Rotate crops.")
  ++ str "}".

(** * Properties *)

(** ** The platform functions on small inputs *)

Example parse_nested :
  Json.parse (str "{" ++ quoted (str "a") ++ str " : [1, -2.5e+3, true, null, {}] }")
  = Some (JObject [(str "a", JArray [JNumber (str "1"); JNumber (str "-2.5e+3");
                                     JBool true; JNull; JObject []])]).
Proof. reflexivity. Qed.

Example parse_escapes :
  Json.parse (quoted (str "a" ++ bs ++ str "u0041" ++ bs ++ str "n" ++ bs ++ dq))
  = Some (JString (str "aA" ++ [10%N; 34%N])).
Proof. reflexivity. Qed.

Example parse_repeated_key :
  Json.parse (str "{" ++ quoted (str "k") ++ str ":1," ++ quoted (str "j")
              ++ str ":2," ++ quoted (str "k") ++ str ":3}")
  = Some (JObject [(str "k", JNumber (str "3")); (str "j", JNumber (str "2"))]).
Proof. reflexivity. Qed.

Example parse_null : Json.parse (str " null ") = Some JNull.
Proof. reflexivity. Qed.

Example parse_rejects :
  map Json.parse
    [[]; str "{"; str "[1,]"; str "01"; str "1."; str "-"; str "nul";
     str "{} {}"; str "undefined"; str "{a:1}"; dq ++ str "open"]
  = [None; None; None; None; None; None; None; None; None; None; None].
Proof. reflexivity. Qed.

Example split_data_url :
  split (str "data:image/png;base64,iVBORw0KGgo=") 44%N
  = [str "data:image/png;base64"; str "iVBORw0KGgo="].
Proof. reflexivity. Qed.

Example split_no_comma : nth_error (split (str "iVBORw0KGgo=") 44%N) 1 = None.
Proof. reflexivity. Qed.

Example badge_of_diseased :
  status_badge (JObject [(str "diseaseName", JString (str "Early Blight"))])
  = Some (str "Diagnosis: Critical").
Proof. reflexivity. Qed.

Example badge_of_unhealthy :
  status_badge (JObject [(str "diseaseName", JString (str "UNHEALTHY leaf"))])
  = Some (str "Status: Optimal").
Proof. reflexivity. Qed.

(** The report of the empty object has no [diseaseName] to lower-case. *)
Example badge_of_empty_object : status_badge (JObject []) = None.
Proof. reflexivity. Qed.

Example healthy_text_parses : Json.parse healthy_text = Some healthy_report.
Proof. reflexivity. Qed.

(** ** What each handler leaves in the cells *)

Lemma after_reset (s : AppState) :
  after reset s =
  {| image := None; isAnalyzing := isAnalyzing s; result := JNull; error := None |}.
Proof. reflexivity. Qed.

Lemma after_analyzeImage_call (b : jsstring) (s : AppState) :
  after (analyzeImage_call b) s =
  {| image := image s; isAnalyzing := true; result := JNull; error := None |}.
Proof. reflexivity. Qed.

Lemma analyzeImage_call_returns (b : jsstring) (s : AppState) :
  analyzeImage_call b s = (Normal (request_of b), after (analyzeImage_call b) s).
Proof. reflexivity. Qed.

Lemma after_onloadend (b : jsstring) (s : AppState) :
  after (onloadend b) s =
  {| image := Some b; isAnalyzing := true; result := JNull; error := None |}.
Proof. reflexivity. Qed.

Lemma onloadend_returns (b : jsstring) (s : AppState) :
  onloadend b s = (Normal (request_of b), after (onloadend b) s).
Proof. reflexivity. Qed.

Lemma after_settle_rejected (reason : jsstring) (s : AppState) :
  after (analyzeImage_settle (Rejected reason)) s =
  {| image := image s; isAnalyzing := false; result := result s;
     error := Some FAILURE_MESSAGE |}.
Proof. reflexivity. Qed.

Lemma after_settle_parsed (text : option jsstring) (data : JsValue) (s : AppState) :
  Json.parse (or_else text (str "{}")) = Some data ->
  after (analyzeImage_settle (Fulfilled text)) s =
  {| image := image s; isAnalyzing := false; result := data; error := error s |}.
Proof.
  intros Hp.
  unfold after, analyzeImage_settle, try_catch_finally, bind, awaited, JSON_parse, ret.
  rewrite Hp. reflexivity.
Qed.

Lemma after_settle_syntax_error (text : option jsstring) (s : AppState) :
  Json.parse (or_else text (str "{}")) = None ->
  after (analyzeImage_settle (Fulfilled text)) s =
  {| image := image s; isAnalyzing := false; result := result s;
     error := Some FAILURE_MESSAGE |}.
Proof.
  intros Hp.
  unfold after, analyzeImage_settle, try_catch_finally, bind, awaited, JSON_parse, ret.
  rewrite Hp. reflexivity.
Qed.

Lemma after_settle_fails (o : Settlement) (s : AppState) :
  fails o = true ->
  after (analyzeImage_settle o) s =
  {| image := image s; isAnalyzing := false; result := result s;
     error := Some FAILURE_MESSAGE |}.
Proof.
  destruct o as [reason | text]; simpl; intros Hf.
  - apply after_settle_rejected.
  - apply after_settle_syntax_error.
    destruct (Json.parse (or_else text (str "{}"))); [discriminate | reflexivity].
Qed.

Lemma settle_cases (o : Settlement) (s : AppState) :
  settle_spec o s (after (analyzeImage_settle o) s).
Proof.
  destruct (fails o) eqn:Hf.
  - rewrite after_settle_fails by assumption. constructor. exact Hf.
  - destruct o as [reason | text]; [discriminate Hf |].
    destruct (Json.parse (or_else text (str "{}"))) as [data |] eqn:Hp.
    + rewrite (after_settle_parsed _ _ _ Hp).
      apply settle_parsed with (text := text); [reflexivity | exact Hp | exact Hf].
    + simpl in Hf. rewrite Hp in Hf. discriminate Hf.
Qed.

Lemma settle_always_ends_analyzing (o : Settlement) (s : AppState) :
  isAnalyzing (after (analyzeImage_settle o) s) = false.
Proof. destruct (settle_cases o s); reflexivity. Qed.

Lemma parse_empty_text : Json.parse [] = None.
Proof. reflexivity. Qed.

Lemma parse_fallback_text : Json.parse (str "{}") = Some (JObject []).
Proof. reflexivity. Qed.

Lemma or_else_parsed (text fallback : jsstring) (data : JsValue) :
  Json.parse text = Some data -> or_else (Some text) fallback = text.
Proof.
  destruct text as [| c r]; [rewrite parse_empty_text; discriminate | reflexivity].
Qed.

(** ** Invariants of the event loop *)

Section Invariant.

Variable Inv : World -> Prop.
Variable ok : World -> Event -> bool.
Hypothesis preserved :
  forall w e w', Inv w -> ok w e = true -> step w e = Some w' -> Inv w'.

Lemma run_invariant (es : list Event) :
  forall w w', Inv w -> along ok w es = true -> run w es = Some w' -> Inv w'.
Proof.
  induction es as [| e es IH]; simpl; intros w w' Hinv Hok Hrun.
  - injection Hrun as <-. exact Hinv.
  - apply andb_prop in Hok as [Hok1 Hok2].
    destruct (step w e) as [w1 |] eqn:Hstep; [| discriminate].
    apply (IH w1 w'); [| assumption | assumption].
    apply (preserved w e w1 Hinv Hok1 Hstep).
Qed.

End Invariant.

Lemma along_any (es : list Event) :
  forall w, along (fun _ _ => true) w es = true.
Proof.
  induction es as [| e es IH]; simpl; intros w; [reflexivity |].
  destruct (step w e); auto.
Qed.

Lemma step_starts_call (w w' : World) (e : Event) :
  starts_call e = true -> step w e = Some w' ->
  isAnalyzing (app w') = true /\ result (app w') = JNull /\ error (app w') = None
  /\ exists b, inflight w' = inflight w ++ [request_of b].
Proof.
  destruct e as [b | b | | i o]; simpl; try discriminate;
    intros _ Hstep; injection Hstep as <-; repeat split; exists b; reflexivity.
Qed.

Lemma step_reset (w w' : World) :
  step w Reset = Some w' ->
  app w' = after reset (app w) /\ inflight w' = inflight w.
Proof. simpl. intros H. injection H as <-. split; reflexivity. Qed.

Lemma step_settled (w w' : World) (i : nat) (o : Settlement) :
  step w (Settled i o) = Some w' ->
  i < List.length (inflight w)
  /\ app w' = after (analyzeImage_settle o) (app w)
  /\ inflight w' = remove_nth i (inflight w).
Proof.
  simpl. destruct (nth_error (inflight w) i) eqn:Hn; [| discriminate].
  intros H. injection H as <-. repeat split.
  apply nth_error_Some. congruence.
Qed.

Lemma analyzing_is_clear_preserved (w : World) (e : Event) (w' : World) :
  analyzing_is_clear w -> true = true -> step w e = Some w' -> analyzing_is_clear w'.
Proof.
  unfold analyzing_is_clear. intros Hinv _ Hstep Hon.
  destruct (starts_call e) eqn:Hs.
  - destruct (step_starts_call _ _ _ Hs Hstep) as (_ & Hr & He & _). auto.
  - destruct e as [b | b | | i o]; try discriminate.
    + apply step_reset in Hstep as [Happ _]. rewrite Happ. split; reflexivity.
    + apply step_settled in Hstep as (_ & Happ & _).
      rewrite Happ, settle_always_ends_analyzing in Hon. discriminate.
Qed.

Lemma settle_sets_one (o : Settlement) (s : AppState) :
  result s = JNull -> error s = None ->
  let s' := after (analyzeImage_settle o) s in
  has_result s' && has_error s' = false.
Proof.
  intros Hr He. simpl.
  destruct (settle_cases o s); unfold has_result, has_error; simpl.
  - rewrite Hr. reflexivity.
  - rewrite He. apply andb_false_r.
Qed.

Lemma serial_inv_preserved (w : World) (e : Event) (w' : World) :
  serial_inv w -> no_overlap w e = true -> step w e = Some w' -> serial_inv w'.
Proof.
  unfold serial_inv, no_overlap. intros Hinv Hok Hstep.
  destruct (starts_call e) eqn:Hs.
  - destruct (step_starts_call _ _ _ Hs Hstep) as (_ & Hr & He & b & Hfl).
    simpl in Hok. destruct (inflight w); [| discriminate].
    rewrite Hfl. simpl. auto.
  - destruct e as [b | b | | i o]; try discriminate.
    + apply step_reset in Hstep as [Happ Hfl]. rewrite Hfl, Happ.
      destruct (inflight w) as [| r [| r' l]]; simpl; auto.
    + apply step_settled in Hstep as (Hi & Happ & Hfl). rewrite Hfl, Happ.
      destruct (inflight w) as [| r [| r' l]]; simpl in *; try lia; try tauto.
      destruct Hinv as [Hr He].
      destruct i; [| simpl in Hi; lia]. simpl.
      apply settle_sets_one; assumption.
Qed.

(** ** [reset] *)

(** C9. [reset] is idempotent: from every state of the component, with any
    calls in flight, two calls of [reset] in a row leave exactly the state
    that one call leaves. *)
Theorem reset_idempotent (w : World) :
  run w [Reset; Reset] = run w [Reset]
  /\ after reset (after reset (app w)) = after reset (app w).
Proof. split; reflexivity. Qed.

(** C10. [reset] writes [image], [result] and [error] only: [isAnalyzing]
    and the calls in flight are as before, so a reset during a call leaves
    the component in [Analyzing]. The only event that takes [isAnalyzing]
    from [true] to [false] is the settlement of a call, and every settlement
    does. *)
Theorem reset_leaves_isAnalyzing (w : World) :
  (exists w',
      step w Reset = Some w'
      /\ isAnalyzing (app w') = isAnalyzing (app w)
      /\ inflight w' = inflight w
      /\ (phase (app w) = Analyzing <-> phase (app w') = Analyzing))
  /\ (forall e w2,
        step w e = Some w2 ->
        isAnalyzing (app w) = true ->
        isAnalyzing (app w2) = false ->
        exists i o, e = Settled i o)
  /\ (forall i o w2,
        step w (Settled i o) = Some w2 ->
        isAnalyzing (app w2) = false /\ phase (app w2) <> Analyzing).
Proof.
  split; [| split].
  - eexists; split; [reflexivity |].
    split; [reflexivity |]. split; [reflexivity |].
    unfold phase; simpl. destruct (isAnalyzing (app w)).
    + tauto.
    + destruct (has_error (app w)), (has_result (app w)); split; discriminate.
  - intros e w2 Hstep Hon Hoff.
    destruct e as [b | b | | i o]; simpl in Hstep.
    + injection Hstep as <-. unfold send in Hoff.
      rewrite onloadend_returns, after_onloadend in Hoff. discriminate.
    + injection Hstep as <-. unfold send in Hoff.
      rewrite analyzeImage_call_returns, after_analyzeImage_call in Hoff.
      discriminate.
    + injection Hstep as <-. simpl in Hoff. congruence.
    + eauto.
  - intros i o w2 Hstep.
    apply step_settled in Hstep as (_ & Happ & _).
    assert (Hoff : isAnalyzing (app w2) = false).
    { rewrite Happ. apply settle_always_ends_analyzing. }
    split; [exact Hoff |].
    unfold phase. rewrite Hoff.
    destruct (has_error (app w2)), (has_result (app w2)); discriminate.
Qed.

(** C3, at a state the claim fails on: while the call of a freshly loaded
    image is in flight the component is in [Analyzing], and after [reset] it
    still is, not in [Idle]. *)
Lemma reset_while_analyzing_not_idle :
  let s := after (onloadend (readAsDataURL jpeg_file)) initialState in
  phase s = Analyzing
  /\ phase (after reset s) = Analyzing
  /\ phase (after reset s) <> Idle.
Proof. repeat split; discriminate. Qed.

(** C3, as the code has it. [reset] clears [image], [result] and [error]
    from every state and leaves [isAnalyzing]: from [Ready], [Failed] and
    [Idle] the component is in [Idle] afterwards, from [Analyzing] it stays
    in [Analyzing]. *)
Theorem reset_clears_cells (s : AppState) :
  let s' := after reset s in
  image s' = None
  /\ result s' = JNull
  /\ error s' = None
  /\ isAnalyzing s' = isAnalyzing s
  /\ phase s' = match phase s with
                | Analyzing => Analyzing
                | Ready | Failed | Idle => Idle
                end.
Proof.
  simpl. repeat split.
  unfold phase; simpl.
  destruct (isAnalyzing s); [reflexivity |].
  destruct (has_error s), (has_result s); reflexivity.
Qed.

(** ** Entering [Analyzing] *)

(** C6. In every reachable state and for every image, [analyzeImage]
    (called directly or from [reader.onloadend]) puts the component in
    [Analyzing] with [result] and [error] cleared while its call is still in
    flight, not yet settled; and in every reachable [Analyzing] state
    [result] and [error] are both absent. *)
Theorem analyzing_has_no_result_no_error (es : list Event) (w : World) :
  run initialWorld es = Some w ->
  (forall base64Image,
      enters_analyzing w (Analyze base64Image) (request_of base64Image)
      /\ enters_analyzing w (FileLoaded base64Image) (request_of base64Image))
  /\ (phase (app w) = Analyzing ->
      result (app w) = JNull /\ error (app w) = None).
Proof.
  intros Hrun. split.
  - intros b. split; (eexists; split; [reflexivity |]; repeat split).
  - intros Hph.
    assert (Hon : isAnalyzing (app w) = true).
    { unfold phase in Hph. destruct (isAnalyzing (app w)); [reflexivity |].
      destruct (has_error (app w)), (has_result (app w)); discriminate. }
    revert Hon. change (analyzing_is_clear w).
    apply run_invariant
      with (ok := fun _ _ => true) (es := es) (w := initialWorld).
    + exact analyzing_is_clear_preserved.
    + intros H; discriminate H.
    + apply along_any.
    + exact Hrun.
Qed.

Lemma analyzing_has_no_result_no_error_witness :
  let w := {| app := after (onloadend (readAsDataURL png_file)) initialState;
              inflight := [request_of (readAsDataURL png_file)] |} in
  (forall base64Image,
      enters_analyzing w (Analyze base64Image) (request_of base64Image)
      /\ enters_analyzing w (FileLoaded base64Image) (request_of base64Image))
  /\ (phase (app w) = Analyzing ->
      result (app w) = JNull /\ error (app w) = None).
Proof.
  exact (analyzing_has_no_result_no_error
           [FileLoaded (readAsDataURL png_file)] _ eq_refl).
Defined.

(** ** [result] and [error] together *)

(** C1, a run the claim fails on: two uploads with a reset between them, the
    first call rejected after the second one started and the second one
    fulfilled. The message of the first call and the report of the second
    are both in the cells at the end. *)
Lemma overlapping_calls_set_result_and_error :
  exists w,
    run initialWorld overlapping_calls = Some w
    /\ result (app w) = healthy_report
    /\ error (app w) = Some FAILURE_MESSAGE
    /\ has_result (app w) && has_error (app w) = true.
Proof. eexists. split; [vm_compute; reflexivity |]. repeat split. Qed.

(** C1, as the code has it. In every state reached by events among which
    [analyzeImage] is never called while an earlier call is in flight,
    [result] and [error] are not both present. In every such state the call
    of [analyzeImage] clears both, a settlement that succeeds writes
    [result] and leaves [error], and one that fails writes [error] and
    leaves [result]. *)
Theorem result_and_error_exclusive (es : list Event) (w : World) :
  run initialWorld es = Some w ->
  one_at_a_time initialWorld es = true ->
  has_result (app w) && has_error (app w) = false
  /\ (forall b, let s := after (analyzeImage_call b) (app w) in
                result s = JNull /\ error s = None)
  /\ (forall o, let s := after (analyzeImage_settle o) (app w) in
                if fails o
                then result s = result (app w) /\ error s = Some FAILURE_MESSAGE
                else error s = error (app w)).
Proof.
  intros Hrun Hser. split; [| split].
  - assert (Hinv : serial_inv w).
    { apply run_invariant with (ok := no_overlap) (es := es) (w := initialWorld).
      - exact serial_inv_preserved.
      - reflexivity.
      - exact Hser.
      - exact Hrun. }
    unfold serial_inv in Hinv.
    destruct (inflight w) as [| r [| r' l]]; [assumption | | contradiction].
    destruct Hinv as [Hr He]. unfold has_result. rewrite Hr. reflexivity.
  - intros b. simpl. split; reflexivity.
  - intros o. simpl.
    destruct (settle_cases o (app w)) as [Hf | text data _ _ Hf]; rewrite Hf.
    + split; reflexivity.
    + reflexivity.
Qed.

Lemma result_and_error_exclusive_witness :
  let w := {| app := {| image := Some (readAsDataURL jpeg_file);
                        isAnalyzing := false;
                        result := healthy_report;
                        error := None |};
              inflight := [] |} in
  has_result (app w) && has_error (app w) = false
  /\ (forall b, let s := after (analyzeImage_call b) (app w) in
                result s = JNull /\ error s = None)
  /\ (forall o, let s := after (analyzeImage_settle o) (app w) in
                if fails o
                then result s = result (app w) /\ error s = Some FAILURE_MESSAGE
                else error s = error (app w)).
Proof.
  refine (result_and_error_exclusive one_upload _ _ _);
    vm_compute; reflexivity.
Defined.

(** ** How a call ends *)

(** C4. Whatever makes the call fail (the awaited promise is rejected, or
    an exception is thrown while the response is read), the settlement puts
    the component in [Failed] with exactly the fixed message in [error] and
    leaves [result] as it was, so that a run of [analyzeImage] ends with no
    [result]; the cells it leaves do not depend on the cause. *)
Theorem failed_call_sets_fixed_message
  (base64Image : jsstring) (o : Settlement) (s : AppState) :
  fails o = true ->
  (let s' := after (analyzeImage_settle o) s in
   phase s' = Failed
   /\ error s' = Some FAILURE_MESSAGE
   /\ result s' = result s
   /\ s' = {| image := image s; isAnalyzing := false; result := result s;
              error := Some FAILURE_MESSAGE |})
  /\ (let s' := analyzeImage_run base64Image o s in
      phase s' = Failed
      /\ error s' = Some FAILURE_MESSAGE
      /\ result s' = JNull).
Proof.
  intros Hf. unfold analyzeImage_run.
  rewrite !after_settle_fails by assumption.
  repeat split.
Qed.

Lemma failed_call_sets_fixed_message_witness :
  (let s' := after (analyzeImage_settle
                      (Rejected (str "TypeError: Failed to fetch")))
               initialState in
   phase s' = Failed
   /\ error s' = Some FAILURE_MESSAGE
   /\ result s' = result initialState
   /\ s' = {| image := image initialState; isAnalyzing := false;
              result := result initialState; error := Some FAILURE_MESSAGE |})
  /\ (let s' := analyzeImage_run (readAsDataURL jpeg_file)
                  (Rejected (str "TypeError: Failed to fetch")) initialState in
      phase s' = Failed
      /\ error s' = Some FAILURE_MESSAGE
      /\ result s' = JNull).
Proof.
  exact (failed_call_sets_fixed_message (readAsDataURL jpeg_file)
           (Rejected (str "TypeError: Failed to fetch")) initialState eq_refl).
Defined.

(** C5. When the text of the response parses to a value with all seven
    fields, a run of [analyzeImage] ends in [Ready] with no [error], and
    [result] is that value: each of the seven fields reads as in the
    response. *)
Theorem complete_response_is_exposed
  (base64Image text : jsstring) (data : JsValue) (s : AppState) :
  Json.parse text = Some data ->
  has_fields data FIELDS = true ->
  let s' := analyzeImage_run base64Image (Fulfilled (Some text)) s in
  phase s' = Ready
  /\ error s' = None
  /\ result s' = data
  /\ forall k, In k FIELDS -> get (result s') k = get data k /\ get data k <> None.
Proof.
  intros Hp Hfields. unfold analyzeImage_run.
  assert (Hp' : Json.parse (or_else (Some text) (str "{}")) = Some data).
  { rewrite (or_else_parsed _ _ _ Hp). exact Hp. }
  rewrite (after_settle_parsed _ _ _ Hp'). simpl.
  assert (Hobj : is_null data = false).
  { destruct data; try reflexivity. discriminate Hfields. }
  repeat split.
  - unfold phase, has_error, has_result; simpl. rewrite Hobj. reflexivity.
  - unfold has_fields in Hfields. rewrite forallb_forall in Hfields.
    specialize (Hfields k H). destruct (get data k); [discriminate | discriminate].
Qed.

Lemma complete_response_is_exposed_witness :
  let s' := analyzeImage_run (readAsDataURL jpeg_file)
              (Fulfilled (Some healthy_text)) initialState in
  phase s' = Ready
  /\ error s' = None
  /\ result s' = healthy_report
  /\ forall k, In k FIELDS ->
       get (result s') k = get healthy_report k /\ get healthy_report k <> None.
Proof.
  refine (complete_response_is_exposed (readAsDataURL jpeg_file)
            healthy_text healthy_report initialState _ _);
    vm_compute; reflexivity.
Defined.

(** C2, a response the claim fails on: a body that is not JSON. [JSON.parse]
    throws, the [catch] runs, and the component is in [Failed] with the
    fixed message and no [result]. *)
Lemma malformed_body_fails :
  let s' := analyzeImage_run (readAsDataURL jpeg_file)
              (Fulfilled (Some malformed_text)) initialState in
  Json.parse malformed_text = None
  /\ phase s' = Failed
  /\ error s' = Some FAILURE_MESSAGE
  /\ result s' = JNull.
Proof. vm_compute. repeat split. Qed.

(** C2, as the code has it. When the response has no body or an empty one,
    the text falls back to [{}]: a run of [analyzeImage] does not end in
    [Failed], [result] is the empty object, each of the seven fields is
    [undefined], and [error] stays absent. A body that is not empty and that
    [JSON.parse] rejects gets no fallback: the run ends in [Failed] with the
    fixed message. *)
Theorem empty_body_gives_empty_object
  (base64Image : jsstring) (text : option jsstring) (bad : jsstring)
  (s : AppState) :
  empty_body text = true ->
  empty_body (Some bad) = false ->
  Json.parse bad = None ->
  (let s' := analyzeImage_run base64Image (Fulfilled text) s in
   phase s' = Ready
   /\ result s' = JObject []
   /\ (forall k, In k FIELDS -> get (result s') k = None)
   /\ error s' = None)
  /\ (let s' := analyzeImage_run base64Image (Fulfilled (Some bad)) s in
      phase s' = Failed
      /\ error s' = Some FAILURE_MESSAGE
      /\ result s' = JNull).
Proof.
  intros Hempty Hne Hbad. split.
  - unfold analyzeImage_run.
    assert (Hp : Json.parse (or_else text (str "{}")) = Some (JObject [])).
    { destruct text as [[| c r] |]; try discriminate; reflexivity. }
    rewrite (after_settle_parsed _ _ _ Hp). repeat split.
  - unfold analyzeImage_run.
    assert (Hp : Json.parse (or_else (Some bad) (str "{}")) = None).
    { destruct bad as [| c r]; [discriminate Hne | exact Hbad]. }
    rewrite (after_settle_syntax_error _ _ Hp). repeat split.
Qed.

Lemma empty_body_gives_empty_object_witness :
  (let s' := analyzeImage_run (readAsDataURL jpeg_file) (Fulfilled (Some []))
               initialState in
   phase s' = Ready
   /\ result s' = JObject []
   /\ (forall k, In k FIELDS -> get (result s') k = None)
   /\ error s' = None)
  /\ (let s' := analyzeImage_run (readAsDataURL jpeg_file)
                  (Fulfilled (Some malformed_text)) initialState in
      phase s' = Failed
      /\ error s' = Some FAILURE_MESSAGE
      /\ result s' = JNull).
Proof.
  refine (empty_body_gives_empty_object (readAsDataURL jpeg_file) (Some [])
            malformed_text initialState _ _ _).
  - reflexivity.
  - reflexivity.
  - vm_compute; reflexivity.
Defined.

(** ** The request *)

Lemma request_declares_jpeg (base64Image : jsstring) :
  request_mimeType (request_of base64Image) = Some (str "image/jpeg").
Proof. reflexivity. Qed.

Lemma split_aux_last (cur s : jsstring) :
  comma_free s = true -> split_aux 44%N cur s = [rev cur ++ s].
Proof.
  revert cur. induction s as [| c s IH]; simpl; intros cur Hs.
  - rewrite app_nil_r. reflexivity.
  - apply andb_prop in Hs as [Hc Hs].
    destruct (N.eqb c 44%N); [discriminate Hc |].
    rewrite IH by assumption. simpl. rewrite <- app_assoc. reflexivity.
Qed.

Lemma split_aux_first (cur pre post : jsstring) :
  comma_free pre = true ->
  split_aux 44%N cur (pre ++ 44%N :: post)
  = (rev cur ++ pre) :: split_aux 44%N [] post.
Proof.
  revert cur. induction pre as [| c pre IH]; simpl; intros cur Hs.
  - rewrite app_nil_r. reflexivity.
  - apply andb_prop in Hs as [Hc Hs].
    destruct (N.eqb c 44%N); [discriminate Hc |].
    rewrite IH by assumption. simpl. rewrite <- app_assoc. reflexivity.
Qed.

Lemma request_data_split (base64Image : jsstring) :
  request_data (request_of base64Image) = nth_error (split base64Image 44%N) 1.
Proof. reflexivity. Qed.

(** The request carries the content of the file: for a file whose type and
    content hold no comma, [split(',')[1]] of its data URL is the content in
    base 64. *)
Lemma request_carries_content (f : File) :
  comma_free (file_type f) = true ->
  comma_free (file_base64 f) = true ->
  request_data (request_of (readAsDataURL f)) = Some (file_base64 f).
Proof.
  intros Ht Hc. rewrite request_data_split. unfold readAsDataURL, split.
  assert (Hty : comma_free (dataURL_type f) = true).
  { unfold dataURL_type. destruct (file_type f); [reflexivity | exact Ht]. }
  replace (str "data:" ++ dataURL_type f ++ str ";base64," ++ file_base64 f)
    with ((str "data:" ++ dataURL_type f ++ str ";base64")
          ++ 44%N :: file_base64 f).
  - rewrite split_aux_first.
    + rewrite split_aux_last by assumption. reflexivity.
    + unfold comma_free in *. rewrite !forallb_app.
      apply andb_true_intro; split; [reflexivity |].
      apply andb_true_intro; split; [exact Hty | reflexivity].
  - rewrite <- !app_assoc. reflexivity.
Qed.

(** C7, at a PNG file. The data URL the reader hands to [analyzeImage]
    declares [image/png] and the request carries the content of the file,
    but the [mimeType] of the request is [image/jpeg]. *)
Theorem png_is_sent_as_jpeg :
  let w := send (onloadend (readAsDataURL png_file)) initialWorld in
  startsWith (readAsDataURL png_file) (str "data:image/png;") = true
  /\ file_type png_file = str "image/png"
  /\ map request_data (inflight w) = [Some (file_base64 png_file)]
  /\ map request_mimeType (inflight w) = [Some (str "image/jpeg")]
  /\ str "image/jpeg" <> file_type png_file.
Proof. vm_compute. repeat split. discriminate. Qed.

(** ** The badge of the report *)

Lemma startsWith_prefix (b a : jsstring) :
  startsWith a b = true <-> exists post, a = b ++ post.
Proof.
  revert a. induction b as [| y b IH]; intros a.
  - split; [intros _; exists a; reflexivity | intros _; destruct a; reflexivity].
  - destruct a as [| x a]; simpl.
    + split; [discriminate | intros [post H]; discriminate H].
    + rewrite andb_true_iff, N.eqb_eq, IH. split.
      * intros [-> [post ->]]. exists post. reflexivity.
      * intros [post H]. injection H as -> ->. eauto.
Qed.

Lemma includes_unfold (a b : jsstring) :
  includes a b =
  startsWith a b || match a with [] => false | _ :: a' => includes a' b end.
Proof. destruct a; reflexivity. Qed.

Lemma includes_infix (a b : jsstring) :
  includes a b = true <-> exists pre post, a = pre ++ b ++ post.
Proof.
  induction a as [| x a IH];
    rewrite includes_unfold, orb_true_iff, startsWith_prefix.
  - split.
    + intros [[post H] | H]; [| discriminate]. exists [], post. exact H.
    + intros (pre & post & H). left.
      destruct pre; [exists post; exact H | discriminate H].
  - rewrite IH. split.
    + intros [[post H] | (pre & post & H)].
      * exists [], post. exact H.
      * exists (x :: pre), post. rewrite H. reflexivity.
    + intros (pre & post & H). destruct pre as [| p pre]; simpl in H.
      * left. exists post. exact H.
      * right. injection H as _ ->. eauto.
Qed.

Lemma includes_lower_contains_ci (s word : jsstring) :
  includes (toLowerCase s) (toLowerCase word) = true <-> contains_ci s word.
Proof.
  rewrite includes_infix. unfold contains_ci, toLowerCase. split.
  - intros (pre & post & H).
    apply map_eq_app in H as (pre' & rest & -> & _ & H).
    apply map_eq_app in H as (mid & post' & -> & Hmid & _).
    exists pre', mid, post'. split; [reflexivity | exact Hmid].
  - intros (pre & mid & post & -> & Hmid).
    exists (map lower pre), (map lower post).
    rewrite !map_app, Hmid. reflexivity.
Qed.

(** C8. The response of the healthy plant takes a run of [analyzeImage] to
    [Ready] with the seven fields as in the response and no [error], and its
    badge is "Status: Optimal"; for every result, the badge is
    "Status: Optimal" exactly when [diseaseName] is a string that contains
    "healthy" up to the case of the letters. *)
Theorem healthy_report_is_optimal :
  (let s' := analyzeImage_run (readAsDataURL jpeg_file)
               (Fulfilled (Some healthy_text)) initialState in
   phase s' = Ready
   /\ error s' = None
   /\ result s' = healthy_report
   /\ get (result s') (str "diseaseName") = Some (JString (str "Healthy"))
   /\ get (result s') (str "scientificName") = Some (JString [])
   /\ get (result s') (str "confidence") = Some (JString (str "99%"))
   /\ get (result s') (str "symptoms") = Some (JArray [])
   /\ get (result s') (str "causes") = Some (JArray [])
   /\ get (result s') (str "treatment") = Some (JString (str "No action needed."))
   /\ get (result s') (str "prevention")
      = Some (JString (str "Maintain watering schedule."))
   /\ status_badge (result s') = Some (str "Status: Optimal"))
  /\ forall r : JsValue,
       status_badge r = Some (str "Status: Optimal") <->
       exists name,
         get r (str "diseaseName") = Some (JString name)
         /\ contains_ci name (str "healthy").
Proof.
  split.
  - vm_compute. repeat split.
  - intros r. unfold status_badge.
    destruct (get r (str "diseaseName")) as [[| | | name | |] |] eqn:Hget;
      try (split; [discriminate | intros (d & Hd & _); discriminate Hd]).
    change (str "healthy") with (toLowerCase (str "healthy")) at 1.
    destruct (includes (toLowerCase name) (toLowerCase (str "healthy"))) eqn:Hinc.
    + split; [intros _ | reflexivity].
      exists name. split; [reflexivity |].
      apply includes_lower_contains_ci. exact Hinc.
    + split; [discriminate |].
      intros (d & Hd & Hc). injection Hd as <-.
      apply includes_lower_contains_ci in Hc. congruence.
Qed.

(** * Further properties of the code *)

(** ** The calls of [generateContent] *)







(** ** The flag [isAnalyzing] and the calls in flight *)

Lemma flag_needs_call_preserved (w : World) (e : Event) (w' : World) :
  flag_needs_call w -> true = true -> step w e = Some w' -> flag_needs_call w'.
Proof.
  unfold flag_needs_call. intros Hinv _ Hstep Hon.
  destruct (starts_call e) eqn:Hs.
  - destruct (step_starts_call _ _ _ Hs Hstep) as (_ & _ & _ & b & Hfl).
    exists (request_of b), (inflight w). exact Hfl.
  - destruct e as [b | b | | i o]; try discriminate.
    + apply step_reset in Hstep as [Happ Hfl]. rewrite Hfl. apply Hinv.
      rewrite Happ in Hon. exact Hon.
    + apply step_settled in Hstep as (_ & Happ & _).
      rewrite Happ, settle_always_ends_analyzing in Hon. discriminate.
Qed.

Lemma flag_inv_preserved (w : World) (e : Event) (w' : World) :
  flag_inv w -> no_overlap w e = true -> step w e = Some w' -> flag_inv w'.
Proof.
  unfold flag_inv, no_overlap. intros Hinv Hok Hstep.
  destruct (starts_call e) eqn:Hs.
  - destruct (step_starts_call _ _ _ Hs Hstep) as (Hon & _ & _ & b & Hfl).
    simpl in Hok. destruct (inflight w); [| discriminate].
    rewrite Hfl. simpl. exact Hon.
  - destruct e as [b | b | | i o]; try discriminate.
    + apply step_reset in Hstep as [Happ Hfl]. rewrite Hfl, Happ.
      destruct (inflight w) as [| r [| r' l]]; simpl; auto.
    + apply step_settled in Hstep as (Hi & Happ & Hfl). rewrite Hfl, Happ.
      destruct (inflight w) as [| r [| r' l]]; simpl in *; try lia; try tauto.
      destruct i; [| simpl in Hi; lia]. simpl.
      apply settle_always_ends_analyzing.
Qed.

(** X2. In every reachable state in which [isAnalyzing] is set, a call is
    in flight: the overlay is never shown with nothing to wait for. *)
Theorem analyzing_flag_has_call (es : list Event) (w : World) :
  run initialWorld es = Some w ->
  isAnalyzing (app w) = true ->
  exists r rest, inflight w = rest ++ [r].
Proof.
  intros Hrun. change (flag_needs_call w).
  apply run_invariant
    with (ok := fun _ _ => true) (es := es) (w := initialWorld).
  - exact flag_needs_call_preserved.
  - intros H; discriminate H.
  - apply along_any.
  - exact Hrun.
Qed.

Lemma analyzing_flag_has_call_witness :
  exists r rest,
    inflight {| app := after (onloadend (readAsDataURL png_file)) initialState;
                inflight := [request_of (readAsDataURL png_file)] |}
    = rest ++ [r].
Proof.
  exact (analyzing_flag_has_call
           [FileLoaded (readAsDataURL png_file)] _ eq_refl eq_refl).
Defined.

(** X3. When [analyzeImage] is never called while a call is in flight, at
    most one call is in flight and [isAnalyzing] is set exactly while it is. *)
Theorem flag_tells_call_in_flight (es : list Event) (w : World) :
  run initialWorld es = Some w ->
  one_at_a_time initialWorld es = true ->
  List.length (inflight w) <= 1
  /\ isAnalyzing (app w) = match inflight w with [] => false | _ :: _ => true end.
Proof.
  intros Hrun Hser.
  assert (Hinv : flag_inv w).
  { apply run_invariant with (ok := no_overlap) (es := es) (w := initialWorld).
    - exact flag_inv_preserved.
    - reflexivity.
    - exact Hser.
    - exact Hrun. }
  unfold flag_inv in Hinv.
  destruct (inflight w) as [| r [| r' l]]; simpl; [auto | auto | contradiction].
Qed.

Lemma flag_tells_call_in_flight_witness :
  let w := {| app := {| image := None; isAnalyzing := true; result := JNull;
                        error := None |};
              inflight := [request_of (readAsDataURL png_file)] |} in
  List.length (inflight w) <= 1
  /\ isAnalyzing (app w) = match inflight w with [] => false | _ :: _ => true end.
Proof.
  exact (flag_tells_call_in_flight
           [FileLoaded (readAsDataURL png_file); Reset] _ eq_refl eq_refl).
Defined.

(** ** What a settlement leaves *)

Lemma settle_on_clear_cells (o : Settlement) (s : AppState) :
  result s = JNull -> error s = None ->
  let s' := after (analyzeImage_settle o) s in
  (result s', error s') = outcome_cells o
  /\ isAnalyzing s' = false
  /\ image s' = image s.
Proof.
  intros Hr He. simpl.
  destruct (settle_cases o s) as [Hf | text data -> Hp _]; simpl.
  - rewrite Hr. repeat split.
    destruct o as [reason | text]; simpl in *; [reflexivity |].
    destruct (Json.parse (or_else text (str "{}"))); [discriminate | reflexivity].
  - rewrite Hp, He. repeat split.
Qed.


(** X5. With one call at a time, whatever resets come between a call and
    its settlement, the settlement leaves in [result] and [error] the
    outcome of that call alone, clears [isAnalyzing], keeps [image], and
    leaves no call in flight. *)
Theorem settlement_in_turn (es : list Event) (w w' : World) (i : nat) (o : Settlement) :
  run initialWorld es = Some w ->
  one_at_a_time initialWorld es = true ->
  step w (Settled i o) = Some w' ->
  (result (app w'), error (app w')) = outcome_cells o
  /\ isAnalyzing (app w') = false
  /\ image (app w') = image (app w)
  /\ inflight w' = [].
Proof.
  intros Hrun Hser Hstep.
  assert (Hinv : serial_inv w).
  { apply run_invariant with (ok := no_overlap) (es := es) (w := initialWorld).
    - exact serial_inv_preserved.
    - reflexivity.
    - exact Hser.
    - exact Hrun. }
  apply step_settled in Hstep as (Hi & Happ & Hfl).
  unfold serial_inv in Hinv.
  destruct (inflight w) as [| r [| r' l]]; simpl in Hi; [lia | | contradiction].
  destruct Hinv as [Hr He].
  destruct (settle_on_clear_cells o (app w) Hr He) as (Hcells & Hoff & Him).
  rewrite Happ, Hfl. repeat split; try assumption.
  destruct i; [reflexivity | lia].
Qed.

Lemma settlement_in_turn_witness :
  let w' := {| app := {| image := None; isAnalyzing := false;
                         result := healthy_report; error := None |};
               inflight := [] |} in
  (result (app w'), error (app w')) = outcome_cells (Fulfilled (Some healthy_text))
  /\ isAnalyzing (app w') = false
  /\ image (app w') = image (after reset (after (onloadend (readAsDataURL jpeg_file))
                                          initialState))
  /\ inflight w' = [].
Proof.
  refine (settlement_in_turn [FileLoaded (readAsDataURL jpeg_file); Reset]
            {| app := after reset (after (onloadend (readAsDataURL jpeg_file))
                                     initialState);
               inflight := [request_of (readAsDataURL jpeg_file)] |}
            _ 0 (Fulfilled (Some healthy_text)) _ _ _);
    vm_compute; reflexivity.
Defined.

(** X6. [reset] cancels nothing. A call in flight at a reset settles as if
    the reset had not happened: its report or the failure message appears
    afterwards, over an empty [image]. *)
Theorem reset_does_not_cancel (w w1 w2 : World) (i : nat) (o : Settlement) :
  step w Reset = Some w1 ->
  step w1 (Settled i o) = Some w2 ->
  (exists r, nth_error (inflight w) i = Some r)
  /\ (result (app w2), error (app w2)) = outcome_cells o
  /\ image (app w2) = None
  /\ isAnalyzing (app w2) = false
  /\ inflight w2 = remove_nth i (inflight w).
Proof.
  intros Hreset Hsettle.
  apply step_reset in Hreset as [Happ1 Hfl1].
  apply step_settled in Hsettle as (Hi & Happ2 & Hfl2).
  rewrite Hfl1 in Hi, Hfl2.
  destruct (settle_on_clear_cells o (app w1)) as (Hcells & Hoff & Him).
  { rewrite Happ1. reflexivity. }
  { rewrite Happ1. reflexivity. }
  rewrite Happ2. repeat split; try assumption.
  - destruct (nth_error (inflight w) i) as [r |] eqn:Hn; [eauto |].
    apply nth_error_None in Hn. lia.
  - rewrite Him, Happ1. reflexivity.
Qed.

Lemma reset_does_not_cancel_witness :
  let w := {| app := after (onloadend (readAsDataURL jpeg_file)) initialState;
              inflight := [request_of (readAsDataURL jpeg_file)] |} in
  let w2 := {| app := {| image := None; isAnalyzing := false;
                         result := healthy_report; error := None |};
               inflight := [] |} in
  (exists r, nth_error (inflight w) 0 = Some r)
  /\ (result (app w2), error (app w2)) = outcome_cells (Fulfilled (Some healthy_text))
  /\ image (app w2) = None
  /\ isAnalyzing (app w2) = false
  /\ inflight w2 = remove_nth 0 (inflight w).
Proof.
  refine (reset_does_not_cancel
            {| app := after (onloadend (readAsDataURL jpeg_file)) initialState;
               inflight := [request_of (readAsDataURL jpeg_file)] |}
            _ _ 0 (Fulfilled (Some healthy_text)) _ _);
    vm_compute; reflexivity.
Defined.



(** ** The image data of the request *)

(** X8. For a file whose type and base-64 content hold no comma, the
    request [analyzeImage] sends for the data URL of the file carries
    exactly the content: [split(',')[1]] strips the [data:...;base64,]
    header and nothing else. *)
Theorem request_data_is_file_content (f : File) :
  comma_free (file_type f) = true ->
  comma_free (file_base64 f) = true ->
  request_data (request_of (readAsDataURL f)) = Some (file_base64 f).
Proof. apply request_carries_content. Qed.

Lemma request_data_is_file_content_witness :
  request_data (request_of (readAsDataURL png_file)) = Some (file_base64 png_file).
Proof.
  exact (request_data_is_file_content png_file eq_refl eq_refl).
Defined.

(** X9. [analyzeImage] checks nothing of its argument: for a string with no
    comma the call is made all the same, the component enters [Analyzing],
    and the request goes out with [data] undefined. *)
Theorem no_comma_sends_undefined_data (w : World) (base64Image : jsstring) :
  comma_free base64Image = true ->
  request_data (request_of base64Image) = None
  /\ enters_analyzing w (Analyze base64Image) (request_of base64Image).
Proof.
  intros Hc. split.
  - rewrite request_data_split. unfold split.
    rewrite split_aux_last by assumption. reflexivity.
  - eexists. split; [reflexivity |]. repeat split.
Qed.

Lemma no_comma_sends_undefined_data_witness :
  request_data (request_of (str "iVBORw0KGgo=")) = None
  /\ enters_analyzing initialWorld (Analyze (str "iVBORw0KGgo="))
       (request_of (str "iVBORw0KGgo=")).
Proof.
  exact (no_comma_sends_undefined_data initialWorld (str "iVBORw0KGgo=") eq_refl).
Defined.

(** X10. The data of the request is the piece between the first and the
    second comma of the argument: what follows a second comma is not sent. *)
Theorem request_data_stops_at_second_comma (pre mid rest : jsstring) :
  comma_free pre = true ->
  comma_free mid = true ->
  request_data (request_of (pre ++ 44%N :: mid ++ 44%N :: rest)) = Some mid.
Proof.
  intros Hpre Hmid. rewrite request_data_split. unfold split.
  rewrite split_aux_first by assumption.
  rewrite split_aux_first by assumption.
  reflexivity.
Qed.

Lemma request_data_stops_at_second_comma_witness :
  request_data
    (request_of (str "data:text/plain;charset=utf-8" ++ 44%N :: str "plant"
                 ++ 44%N :: str " leaf"))
  = Some (str "plant").
Proof.
  exact (request_data_stops_at_second_comma
           (str "data:text/plain;charset=utf-8") (str "plant") (str " leaf")
           eq_refl eq_refl).
Defined.

(** ** The view *)

Lemma conforms_strings (l : list jsstring) :
  forallb (conforms SString) (map JString l) = true.
Proof. induction l as [| x l IH]; [reflexivity | exact IH]. Qed.

(** X11. Every value of [interface AnalysisResult] has the shape the
    request asks the service for: the schema names the seven fields of the
    interface, requires them all and types them as the interface does. *)
Theorem results_conform_to_schema (r : AnalysisResult) :
  conforms RESPONSE_SCHEMA (to_js r) = true
  /\ has_fields (to_js r) FIELDS = true.
Proof.
  split; [| reflexivity].
  unfold RESPONSE_SCHEMA, to_js. cbn.
  rewrite !conforms_strings. reflexivity.
Qed.

Lemma conforms_report (v : JsValue) :
  conforms RESPONSE_SCHEMA v = true ->
  truthy v = Some true
  /\ has_fields v FIELDS = true
  /\ exists rep, report_of v = Some rep.
Proof.
  destruct v as [| b | n | t | items | props]; try discriminate.
  unfold RESPONSE_SCHEMA, has_fields, FIELDS, report_of.
  cbn [conforms forallb get]. intros H.
  apply andb_prop in H as [Hreq Heach].
  split; [reflexivity |]. split; [exact Hreq |].
  repeat match goal with
         | H : _ && _ = true |- _ => apply andb_prop in H as [? ?]
         end.
  destruct (lookup props (str "diseaseName")) as [[| | | name | |] |];
    try discriminate.
  destruct (lookup props (str "symptoms")) as [[| | | | syms |] |];
    try discriminate.
  destruct (lookup props (str "causes")) as [[| | | | cs |] |];
    try discriminate.
  eexists. reflexivity.
Qed.

(** X12. With a value of [interface AnalysisResult] in [result], the view
    renders without a [TypeError] and its report shows the fields of that
    value: the name as heading, one item for each symptom and each cause in
    their order, the other fields as they are, and the badge by the name. *)
Theorem report_shows_the_result (r : AnalysisResult) (s : AppState) :
  result s = to_js r ->
  exists v,
    render s = Rendered v
    /\ idle_panel v = false
    /\ report v =
       Some {| optimal := includes (toLowerCase (diseaseName r)) (str "healthy");
               badge := if includes (toLowerCase (diseaseName r)) (str "healthy")
                        then str "Status: Optimal"
                        else str "Diagnosis: Critical";
               confidence_shown := Some (JString (confidence r));
               heading := diseaseName r;
               scientificName_shown := Some (JString (scientificName r));
               symptom_items := map JString (symptoms r);
               cause_items := map JString (causes r);
               treatment_markdown := Some (JString (treatment r));
               prevention_markdown := Some (JString (prevention r)) |}.
Proof.
  intros Hr. unfold render. rewrite Hr. eexists. split; [reflexivity |].
  split; reflexivity.
Qed.

Lemma report_shows_the_result_witness :
  exists v,
    render {| image := Some (readAsDataURL jpeg_file); isAnalyzing := false;
              result := to_js blight; error := None |} = Rendered v
    /\ idle_panel v = false
    /\ report v =
       Some {| optimal := includes (toLowerCase (diseaseName blight)) (str "healthy");
               badge := if includes (toLowerCase (diseaseName blight)) (str "healthy")
                        then str "Status: Optimal"
                        else str "Diagnosis: Critical";
               confidence_shown := Some (JString (confidence blight));
               heading := diseaseName blight;
               scientificName_shown := Some (JString (scientificName blight));
               symptom_items := map JString (symptoms blight);
               cause_items := map JString (causes blight);
               treatment_markdown := Some (JString (treatment blight));
               prevention_markdown := Some (JString (prevention blight)) |}.
Proof.
  exact (report_shows_the_result blight
           {| image := Some (readAsDataURL jpeg_file); isAnalyzing := false;
              result := to_js blight; error := None |} eq_refl).
Defined.

(** X13. A response with no body or an empty body makes the next render
    throw: the run of [analyzeImage] leaves the empty object in [result],
    the view takes it for a report, and [result.diseaseName.toLowerCase()]
    is a [TypeError]. *)
Theorem empty_body_breaks_the_view
  (base64Image : jsstring) (text : option jsstring) (s : AppState) :
  empty_body text = true ->
  render (analyzeImage_run base64Image (Fulfilled text) s) = TypeError.
Proof.
  intros Hempty. unfold analyzeImage_run.
  assert (Hp : Json.parse (or_else text (str "{}")) = Some (JObject [])).
  { destruct text as [[| c r] |]; try discriminate; reflexivity. }
  rewrite (after_settle_parsed _ _ _ Hp). reflexivity.
Qed.

Lemma empty_body_breaks_the_view_witness :
  render (analyzeImage_run (readAsDataURL jpeg_file) (Fulfilled None) initialState)
  = TypeError.
Proof.
  exact (empty_body_breaks_the_view (readAsDataURL jpeg_file) None initialState
           eq_refl).
Defined.

(** X14. A result that lacks [diseaseName], [symptoms] or [causes] is not
    rendered with an empty name or an empty list: the render throws. *)
Theorem missing_field_breaks_the_view (s : AppState) (k : jsstring) :
  truthy (result s) = Some true ->
  In k [str "diseaseName"; str "symptoms"; str "causes"] ->
  get (result s) k = None ->
  render s = TypeError.
Proof.
  intros Ht Hk Hget. unfold render. rewrite Ht.
  assert (Hrep : report_of (result s) = None).
  { unfold report_of.
    destruct Hk as [<- | [<- | [<- | []]]]; rewrite Hget.
    - reflexivity.
    - destruct (get (result s) (str "diseaseName")) as [[| | | name | |] |];
        reflexivity.
    - destruct (get (result s) (str "diseaseName")) as [[| | | name | |] |];
        try reflexivity.
      destruct (get (result s) (str "symptoms")) as [[| | | | syms |] |];
        reflexivity. }
  rewrite Hrep. reflexivity.
Qed.

Lemma missing_field_breaks_the_view_witness :
  render {| image := None; isAnalyzing := false;
            result := JObject [(str "diseaseName", JString (str "Rust"));
                               (str "causes", JArray [])];
            error := None |} = TypeError.
Proof.
  refine (missing_field_breaks_the_view
            {| image := None; isAnalyzing := false;
               result := JObject [(str "diseaseName", JString (str "Rust"));
                                  (str "causes", JArray [])];
               error := None |} (str "symptoms") eq_refl _ eq_refl).
  right; left; reflexivity.
Defined.

(** X15. After [reset] the view shows the upload area and neither preview,
    overlay, error card nor report; the invitation to upload is there only
    if no call was marked as running. After a reset during a call the right
    column is empty. *)
Theorem view_after_reset (s : AppState) :
  render (after reset s) =
  Rendered {| reset_button := false;
              dropzone := true;
              preview := None;
              overlay := false;
              error_card := None;
              idle_panel := negb (isAnalyzing s);
              report := None |}.
Proof.
  rewrite after_reset. unfold render. simpl.
  destruct (isAnalyzing s); reflexivity.
Qed.

(** X16. In every reachable state in which [isAnalyzing] is set the view
    renders, with neither error card, report nor invitation; the overlay is
    shown if an image is. *)
Theorem view_while_analyzing (es : list Event) (w : World) :
  run initialWorld es = Some w ->
  isAnalyzing (app w) = true ->
  render (app w) =
  Rendered {| reset_button := truthy_string (image (app w));
              dropzone := negb (truthy_string (image (app w)));
              preview := if truthy_string (image (app w)) then image (app w)
                         else None;
              overlay := truthy_string (image (app w));
              error_card := None;
              idle_panel := false;
              report := None |}.
Proof.
  intros Hrun Hon.
  assert (Hclear : analyzing_is_clear w).
  { apply run_invariant
      with (ok := fun _ _ => true) (es := es) (w := initialWorld).
    - exact analyzing_is_clear_preserved.
    - intros H; discriminate H.
    - apply along_any.
    - exact Hrun. }
  destruct (Hclear Hon) as [Hr He].
  unfold render. rewrite Hr, He, Hon. simpl.
  rewrite andb_true_r. reflexivity.
Qed.

Lemma view_while_analyzing_witness :
  let s := after (onloadend (readAsDataURL png_file)) initialState in
  render s =
  Rendered {| reset_button := truthy_string (image s);
              dropzone := negb (truthy_string (image s));
              preview := if truthy_string (image s) then image s else None;
              overlay := truthy_string (image s);
              error_card := None;
              idle_panel := false;
              report := None |}.
Proof.
  exact (view_while_analyzing [FileLoaded (readAsDataURL png_file)] _
           eq_refl eq_refl).
Defined.

Lemma result_well_shaped_preserved (w : World) (e : Event) (w' : World) :
  result_well_shaped w -> schema_honoured w e = true -> step w e = Some w' ->
  result_well_shaped w'.
Proof.
  unfold result_well_shaped. intros Hinv Hok Hstep.
  destruct (starts_call e) eqn:Hs.
  - destruct (step_starts_call _ _ _ Hs Hstep) as (_ & Hr & _). left. exact Hr.
  - destruct e as [b | b | | i o]; try discriminate.
    + apply step_reset in Hstep as [Happ _]. rewrite Happ. left. reflexivity.
    + apply step_settled in Hstep as (_ & Happ & _). rewrite Happ.
      simpl in Hok. unfold honours_schema in Hok.
      destruct (settle_cases o (app w)) as [Hf | text data -> Hp _]; simpl.
      * exact Hinv.
      * simpl in Hok. rewrite Hp in Hok. right. exact Hok.
Qed.

(** X17. As long as every answer of the service either fails or carries a
    value of the shape the request asked for, the view renders in every
    reachable state: no sequence of uploads, resets and settlements, in any
    order, makes the render throw. *)
Theorem view_renders_if_schema_honoured (es : list Event) (w : World) :
  run initialWorld es = Some w ->
  along schema_honoured initialWorld es = true ->
  exists v, render (app w) = Rendered v.
Proof.
  intros Hrun Hok.
  assert (Hinv : result_well_shaped w).
  { apply run_invariant with (ok := schema_honoured) (es := es) (w := initialWorld).
    - exact result_well_shaped_preserved.
    - left. reflexivity.
    - exact Hok.
    - exact Hrun. }
  unfold render. destruct Hinv as [Hr | Hc].
  - rewrite Hr. simpl. eexists. reflexivity.
  - destruct (conforms_report _ Hc) as (Ht & _ & rep & Hrep).
    rewrite Ht, Hrep. eexists. reflexivity.
Qed.

Lemma view_renders_if_schema_honoured_witness :
  exists v,
    render {| image := Some (readAsDataURL png_file); isAnalyzing := false;
              result := to_js blight; error := None |} = Rendered v.
Proof.
  refine (view_renders_if_schema_honoured
            [FileLoaded (readAsDataURL png_file);
             Settled 0 (Fulfilled (Some blight_text))]
            {| app := {| image := Some (readAsDataURL png_file);
                         isAnalyzing := false;
                         result := to_js blight; error := None |};
               inflight := [] |} _ _);
    vm_compute; reflexivity.
Defined.
